(** * MotorModelServo: the servo motor model of rotors_gazebo_plugins

    A shallow embedding of
    [rotors_gazebo_plugins/include/rotors_gazebo_plugins/motor_model_servo.hpp].

    The C++ [double] is the binary64 format, embedded as the primitive
    [float] of the prover, so every arithmetic step rounds exactly as the
    compiled code does.  The [int] member [turning_direction_] is a [Z]. *)

From Stdlib Require Import ZArith Bool List String Lia.
From Stdlib Require Import Floats.
Import ListNotations.

(* Decimal literals are rounded to the nearest binary64 value, as a C++
   compiler rounds them. *)
#[local] Set Warnings "-inexact-float,-register-all".

#[local] Open Scope float_scope.

(** ** The pieces of <cmath> and <algorithm> the header calls *)

Module Cmath.

(** [M_PI], the binary64 value nearest to pi. *)
Definition M_PI : float := 0x1.921fb54442d18p+1.

(** [std::abs] on [double]. *)
Definition fabs (x : float) : float := abs x.

(** The sign bit.  The format of the prover has a single NaN, which is
    read as unsigned. *)
Definition signbit (x : float) : bool := get_sign x.

(** [std::copysign (x, y)]: the magnitude of [x] with the sign of [y]. *)
Definition copysign (x y : float) : float :=
  if signbit y then - (abs x) else abs x.

(** [std::min (a, b)] is [(b < a) ? b : a]. *)
Definition std_min (a b : float) : float := if b <? a then b else a.

(** [std::max (a, b)] is [(a < b) ? b : a]. *)
Definition std_max (a b : float) : float := if a <? b then b else a.

(** [std::fmod] on the specification format: the remainder of the
    truncated division, which is exact and carries the sign of [x]. *)
Definition SFfmod (x y : spec_float) : spec_float :=
  match x, y with
  | S754_nan, _ | _, S754_nan => S754_nan
  | S754_infinity _, _ => S754_nan
  | _, S754_zero _ => S754_nan
  | S754_zero _, _ => x
  | S754_finite _ _ _, S754_infinity _ => x
  | S754_finite sx mx ex, S754_finite _ my ey =>
      let e := Z.min ex ey in
      let X := (Zpos mx * 2 ^ (ex - e))%Z in
      let Y := (Zpos my * 2 ^ (ey - e))%Z in
      match (X mod Y)%Z with
      | Zpos r => binary_round prec emax sx r e
      | _ => S754_zero sx
      end
  end.

Definition fmod (x y : float) : float :=
  SF2Prim (SFfmod (Prim2SF x) (Prim2SF y)).

(** The conversion of an [int] to [double], exact on the range of [int]. *)
Definition double_of_int (z : Z) : float :=
  match z with
  | Z0 => 0
  | Zpos _ => of_uint63 (Uint63.of_Z z)
  | Zneg _ => - of_uint63 (Uint63.of_Z (- z))
  end.

End Cmath.
Import Cmath.

(** ** The SDF element tree the motor is configured from *)

Module Sdf.

(** An element holds text, a number, or named child elements. *)
Inductive Element : Type :=
| Text (s : string)
| Number (d : float)
| Node (children : list (string * Element)).

Fixpoint lookup (name : string) (l : list (string * Element)) : option Element :=
  match l with
  | [] => None
  | (k, e) :: rest => if String.eqb k name then Some e else lookup name rest
  end.

Definition child (e : Element) (name : string) : option Element :=
  match e with
  | Node children => lookup name children
  | _ => None
  end.

Definition HasElement (e : Element) (name : string) : bool :=
  match child e name with Some _ => true | None => false end.

(** Called only after [HasElement] answered yes. *)
Definition GetElement (e : Element) (name : string) : Element :=
  match child e name with Some c => c | None => Node [] end.

(** [Get<std::string>] and [Get<double>]; a value of the other kind reads
    as the default-constructed one. *)
Definition Get_string (e : Element) : string :=
  match e with Text s => s | _ => EmptyString end.

Definition Get_double (e : Element) : float :=
  match e with Number d => d | _ => 0 end.

(** Modelled from the spec: the helper [getSdfParam<double>] of common.h,
    which is not part of this header.  It stores the value of the named
    field into its output parameter, and the given default when the field
    is absent ("each independently defaulted if absent").  The result of
    this function is the value stored. *)
Definition getSdfParam (sdf : Element) (name : string) (default_value : float)
  : float :=
  if HasElement sdf name then Get_double (GetElement sdf name)
  else default_value.

End Sdf.
Import Sdf.

(** ** The joint of the physics engine *)

Module Joint.

(** What the header reads from the joint, and the log of the force
    commands it has issued to it (oldest first). *)
Record t : Type := mk {
  Position : float;
  GetVelocity : float;
  GetForce : float;
  commands : list float
}.

Definition SetForce (j : t) (force : float) : t :=
  {| Position := Position j;
     GetVelocity := GetVelocity j;
     GetForce := GetForce j;
     commands := commands j ++ [force] |}.

End Joint.

(** ** The PID integrator, [gazebo::common::PID] *)

(** The seven arguments of [PID::Init], in its order. *)
Record PidGains : Type := mkGains {
  gain_p : float;
  gain_i : float;
  gain_d : float;
  gain_iMax : float;
  gain_iMin : float;
  gain_cmdMax : float;
  gain_cmdMin : float
}.

(** The integrator is used through two calls only. *)
Class PID : Type := {
  pid_t : Type;
  PID_Init : PidGains -> pid_t;
  PID_Update : pid_t -> float -> float -> float * pid_t
}.

(** A test double: it answers the error it is given and keeps the gains it
    was initialised with and every call made to it (oldest first). *)
Record Probe : Type := mkProbe {
  probe_gains : PidGains;
  probe_calls : list (float * float)
}.

#[export] Instance ProbePID : PID := {|
  pid_t := Probe;
  PID_Init := fun g => mkProbe g [];
  PID_Update := fun p err dt =>
    (err, mkProbe (probe_gains p) (probe_calls p ++ [(err, dt)]))
|}.

Inductive ControlMode : Type := kVelocity | kPosition | kForce.

(** Modelled from the spec: the constants of [namespace spin] in common.h,
    which is not part of this header ("CW = -1, CCW = +1"). *)
Module spin.
Definition CCW : Z := 1.
Definition CW : Z := (-1).
End spin.

(** ** The servo model *)

Section Servo.

Context {integrator : PID}.

(** The members of [MotorModelServo].  The first seven are inherited from
    the base class [MotorModel]: the measured state captured at each
    update, the reference commands and the sampling time. *)
Record MotorModelServo : Type := mkServo {
  motor_rot_pos_ : float;
  motor_rot_vel_ : float;
  motor_rot_effort_ : float;
  ref_motor_rot_pos_ : float;
  ref_motor_rot_vel_ : float;
  ref_motor_rot_effort_ : float;
  sampling_time_ : float;
  mode_ : ControlMode;
  joint_name_ : string;
  turning_direction_ : Z;
  max_rot_velocity_ : float;
  max_torque_ : float;
  max_rot_position_ : float;
  min_rot_position_ : float;
  position_zero_offset_ : float;
  pid_ : pid_t;
  motor_ : Element
}.

(** *** InitializeParams *)

(** The [joint_control_pid] block, source lines 115 to 130: the seven
    locals as they stand when [pid_.Init] is called.  The value of the
    field "iMax" is stored into the local [p] (line 121); the local [iMax]
    is never assigned, and [iMax_indeterminate] stands for whatever it
    holds. *)
Definition joint_control_pid (iMax_indeterminate : float) (motor : Element)
  : PidGains :=
  if HasElement motor "joint_control_pid" then
    let iMax := iMax_indeterminate in
    let pid := GetElement motor "joint_control_pid" in
    let p := getSdfParam pid "p" 0 in
    let i := getSdfParam pid "i" 0 in
    let d := getSdfParam pid "d" 0 in
    let p := getSdfParam pid "iMax" 0 in
    let iMin := getSdfParam pid "iMin" 0 in
    let cmdMax := getSdfParam pid "cmdMax" 0 in
    let cmdMin := getSdfParam pid "cmdMin" 0 in
    mkGains p i d iMax iMin cmdMax cmdMin
  else
    mkGains 0 0 0 0 0 0 0.

(** The control mode, lines 75 to 90. *)
Definition controlMode (motor : Element) (mode : ControlMode) : ControlMode :=
  if HasElement motor "controlMode" then
    let motor_type := Get_string (GetElement motor "controlMode") in
    if String.eqb motor_type "velocity" then kVelocity
    else if String.eqb motor_type "position" then kPosition
    else if String.eqb motor_type "force" then kForce
    else mode
  else mode.

(** The spin direction, lines 93 to 104.  On "ccw" the assignment of line
    99 goes to the local string [turning_direction], so the member keeps
    its value. *)
Definition spinDirection (motor : Element) (direction : Z) : Z :=
  if HasElement motor "spinDirection" then
    let turning_direction := Get_string (GetElement motor "spinDirection") in
    if String.eqb turning_direction "cw" then spin.CW
    else direction
  else direction.

(** The log messages of [gzwarn] and [gzerr] are left out. *)
Definition InitializeParams (iMax_indeterminate : float) (s : MotorModelServo)
  : MotorModelServo :=
  let motor := motor_ s in
  {| motor_rot_pos_ := motor_rot_pos_ s;
     motor_rot_vel_ := motor_rot_vel_ s;
     motor_rot_effort_ := motor_rot_effort_ s;
     ref_motor_rot_pos_ := ref_motor_rot_pos_ s;
     ref_motor_rot_vel_ := ref_motor_rot_vel_ s;
     ref_motor_rot_effort_ := ref_motor_rot_effort_ s;
     sampling_time_ := sampling_time_ s;
     mode_ := controlMode motor (mode_ s);
     joint_name_ := joint_name_ s;
     turning_direction_ := spinDirection motor (turning_direction_ s);
     max_rot_velocity_ :=
       getSdfParam motor "maxRotVelocity" (max_rot_velocity_ s);
     max_torque_ := max_torque_ s;
     max_rot_position_ :=
       getSdfParam motor "maxRotPosition" (max_rot_position_ s);
     min_rot_position_ :=
       getSdfParam motor "minRotPosition" (min_rot_position_ s);
     position_zero_offset_ :=
       getSdfParam motor "zeroOffset" (position_zero_offset_ s);
     pid_ := PID_Init (joint_control_pid iMax_indeterminate motor);
     motor_ := motor |}.

(** *** NormalizeAngle, lines 135 to 152 *)

Definition NormalizeAngle (input : float) : float :=
  let wrapped := fmod (fabs input) (2 * M_PI) in
  let wrapped := copysign wrapped input in
  let wrapped := if fabs (wrapped - 2 * M_PI) <? 1e-8 then 0 else wrapped in
  let wrapped := if wrapped <? 0 then wrapped + 2 * M_PI else wrapped in
  wrapped.

(** *** UpdateForcesAndMoments, lines 154 to 198 *)

(** Lines 155 to 157: the measured state is captured from the joint. *)
Definition capture (s : MotorModelServo) (j : Joint.t) : MotorModelServo :=
  {| motor_rot_pos_ := Joint.Position j;
     motor_rot_vel_ := Joint.GetVelocity j;
     motor_rot_effort_ := Joint.GetForce j;
     ref_motor_rot_pos_ := ref_motor_rot_pos_ s;
     ref_motor_rot_vel_ := ref_motor_rot_vel_ s;
     ref_motor_rot_effort_ := ref_motor_rot_effort_ s;
     sampling_time_ := sampling_time_ s;
     mode_ := mode_ s;
     joint_name_ := joint_name_ s;
     turning_direction_ := turning_direction_ s;
     max_rot_velocity_ := max_rot_velocity_ s;
     max_torque_ := max_torque_ s;
     max_rot_position_ := max_rot_position_ s;
     min_rot_position_ := min_rot_position_ s;
     position_zero_offset_ := position_zero_offset_ s;
     pid_ := pid_ s;
     motor_ := motor_ s |}.

Definition set_pid (s : MotorModelServo) (p : pid_t) : MotorModelServo :=
  {| motor_rot_pos_ := motor_rot_pos_ s;
     motor_rot_vel_ := motor_rot_vel_ s;
     motor_rot_effort_ := motor_rot_effort_ s;
     ref_motor_rot_pos_ := ref_motor_rot_pos_ s;
     ref_motor_rot_vel_ := ref_motor_rot_vel_ s;
     ref_motor_rot_effort_ := ref_motor_rot_effort_ s;
     sampling_time_ := sampling_time_ s;
     mode_ := mode_ s;
     joint_name_ := joint_name_ s;
     turning_direction_ := turning_direction_ s;
     max_rot_velocity_ := max_rot_velocity_ s;
     max_torque_ := max_torque_ s;
     max_rot_position_ := max_rot_position_ s;
     min_rot_position_ := min_rot_position_ s;
     position_zero_offset_ := position_zero_offset_ s;
     pid_ := p;
     motor_ := motor_ s |}.

(** Lines 160 and 161. *)
Definition ref_pos (s : MotorModelServo) : float :=
  std_max (std_min (ref_motor_rot_pos_ s) (max_rot_position_ s))
          (min_rot_position_ s).

(** Lines 165 to 172: the two adjustments made to the difference of the
    angles.  [err > M_PI] is [M_PI < err]. *)
Definition rewrap (err : float) : float :=
  let err := if M_PI <? err then err - 2 * M_PI else err in
  let err := if fabs (err - M_PI) <? 1e-8 then M_PI else err in
  err.

(** Lines 162 to 172: the error handed to the integrator in position
    mode. *)
Definition position_err (s : MotorModelServo) : float :=
  rewrap (NormalizeAngle (motor_rot_pos_ s) - NormalizeAngle (ref_pos s)).

(** Lines 180 to 182. *)
Definition ref_torque (s : MotorModelServo) : float :=
  copysign (ref_motor_rot_effort_ s)
           (std_min (fabs (ref_motor_rot_effort_ s)) (max_torque_ s)).

(** Lines 187 to 189. *)
Definition ref_vel (s : MotorModelServo) : float :=
  copysign (ref_motor_rot_vel_ s)
           (std_min (fabs (ref_motor_rot_vel_ s)) (max_rot_velocity_ s)).

(** Line 190. *)
Definition velocity_err (s : MotorModelServo) : float :=
  motor_rot_vel_ s - ref_vel s.

(** One tick: the new members and the joint after the call. *)
Definition UpdateForcesAndMoments (s : MotorModelServo) (j : Joint.t)
  : MotorModelServo * Joint.t :=
  let s := capture s j in
  let direction := double_of_int (turning_direction_ s) in
  match mode_ s with
  | kPosition =>
      let err := position_err s in
      let (force, p) := PID_Update (pid_ s) err (sampling_time_ s) in
      (set_pid s p, Joint.SetForce j (direction * force))
  | kForce =>
      (s, Joint.SetForce j (direction * ref_torque s))
  | kVelocity =>
      let err := velocity_err s in
      let (force, p) := PID_Update (pid_ s) err (sampling_time_ s) in
      (set_pid s p, Joint.SetForce j (direction * force))
  end.

(** The force handed to [SetForce] by the tick: the last command in the
    log of the joint. *)
Definition applied_force (s : MotorModelServo) (j : Joint.t) : float :=
  last (Joint.commands (snd (UpdateForcesAndMoments s j))) nan.

(** *** Two configurations of one controller *)

(** The same controller mounted with another spin direction. *)
Definition set_turning_direction (s : MotorModelServo) (direction : Z)
  : MotorModelServo :=
  {| motor_rot_pos_ := motor_rot_pos_ s;
     motor_rot_vel_ := motor_rot_vel_ s;
     motor_rot_effort_ := motor_rot_effort_ s;
     ref_motor_rot_pos_ := ref_motor_rot_pos_ s;
     ref_motor_rot_vel_ := ref_motor_rot_vel_ s;
     ref_motor_rot_effort_ := ref_motor_rot_effort_ s;
     sampling_time_ := sampling_time_ s;
     mode_ := mode_ s;
     joint_name_ := joint_name_ s;
     turning_direction_ := direction;
     max_rot_velocity_ := max_rot_velocity_ s;
     max_torque_ := max_torque_ s;
     max_rot_position_ := max_rot_position_ s;
     min_rot_position_ := min_rot_position_ s;
     position_zero_offset_ := position_zero_offset_ s;
     pid_ := pid_ s;
     motor_ := motor_ s |}.

(** The same controller with another zero offset. *)
Definition set_position_zero_offset (s : MotorModelServo) (offset : float)
  : MotorModelServo :=
  {| motor_rot_pos_ := motor_rot_pos_ s;
     motor_rot_vel_ := motor_rot_vel_ s;
     motor_rot_effort_ := motor_rot_effort_ s;
     ref_motor_rot_pos_ := ref_motor_rot_pos_ s;
     ref_motor_rot_vel_ := ref_motor_rot_vel_ s;
     ref_motor_rot_effort_ := ref_motor_rot_effort_ s;
     sampling_time_ := sampling_time_ s;
     mode_ := mode_ s;
     joint_name_ := joint_name_ s;
     turning_direction_ := turning_direction_ s;
     max_rot_velocity_ := max_rot_velocity_ s;
     max_torque_ := max_torque_ s;
     max_rot_position_ := max_rot_position_ s;
     min_rot_position_ := min_rot_position_ s;
     position_zero_offset_ := offset;
     pid_ := pid_ s;
     motor_ := motor_ s |}.

End Servo.

(** ** What the specification asks of the clamps and of the intervals *)

(** The magnitude clamp in the words of the specification:
    [copysign (min (|ref|, limit), ref)]. *)
Definition clamp_magnitude_spec (ref limit : float) : float :=
  copysign (std_min (fabs ref) limit) ref.

(** [lo <= x <= hi]. *)
Definition within (lo hi x : float) : bool := (lo <=? x) && (x <=? hi).

(** [lo <= x < hi]. *)
Definition within_half_open (lo hi x : float) : bool := (lo <=? x) && (x <? hi).

(** [lo < x <= hi]. *)
Definition within_open_closed (lo hi x : float) : bool :=
  (lo <? x) && (x <=? hi).

(** ** A test bench *)

Module Bench.

(** A controller around the probe integrator, with a sampling time of 0.01
    and an empty configuration.  The arguments are the mode, the spin
    direction, the three reference commands (position, velocity, effort)
    and the four limits (velocity, torque, upper position, lower
    position). *)
Definition servo (mode : ControlMode) (direction : Z)
    (ref_position ref_velocity ref_effort : float)
    (max_velocity max_torque max_position min_position : float)
  : @MotorModelServo ProbePID :=
  {| motor_rot_pos_ := 0;
     motor_rot_vel_ := 0;
     motor_rot_effort_ := 0;
     ref_motor_rot_pos_ := ref_position;
     ref_motor_rot_vel_ := ref_velocity;
     ref_motor_rot_effort_ := ref_effort;
     sampling_time_ := 0.01;
     mode_ := mode;
     joint_name_ := EmptyString;
     turning_direction_ := direction;
     max_rot_velocity_ := max_velocity;
     max_torque_ := max_torque;
     max_rot_position_ := max_position;
     min_rot_position_ := min_position;
     position_zero_offset_ := 0;
     pid_ := mkProbe (mkGains 1 0 0 0 0 0 0) [];
     motor_ := Node [] |}.

(** A joint at the given position, velocity and measured effort, to which
    no force has been commanded yet. *)
Definition joint (position velocity effort : float) : Joint.t :=
  Joint.mk position velocity effort [].

(** A motor element with a complete [joint_control_pid] block. *)
Definition motor_with_pid : Element :=
  Node [("jointName", Text "servo_joint");
        ("joint_control_pid",
         Node [("p", Number 2); ("i", Number 3); ("d", Number 4);
               ("iMax", Number 5); ("iMin", Number (-5));
               ("cmdMax", Number 10); ("cmdMin", Number (-10))])]%string.

(** The controller as the constructor leaves it before [InitializeParams]
    runs on the element: position mode, CCW.  The default limits of
    common.h are not part of this header; the bench takes 10, 10, 1 and
    -1 for them. *)
Definition constructed (motor : Element) : @MotorModelServo ProbePID :=
  {| motor_rot_pos_ := 0;
     motor_rot_vel_ := 0;
     motor_rot_effort_ := 0;
     ref_motor_rot_pos_ := 0;
     ref_motor_rot_vel_ := 0;
     ref_motor_rot_effort_ := 0;
     sampling_time_ := 0.01;
     mode_ := kPosition;
     joint_name_ := EmptyString;
     turning_direction_ := spin.CCW;
     max_rot_velocity_ := 10;
     max_torque_ := 10;
     max_rot_position_ := 1;
     min_rot_position_ := -1;
     position_zero_offset_ := 0;
     pid_ := mkProbe (mkGains 0 0 0 0 0 0 0) [];
     motor_ := motor |}.

End Bench.

(** ** The constructor and the host loop *)

(** The default limits [kDefaultMaxRotVelocity], [kDefaultMaxTorque],
    [kDefaultMaxRotPosition], [kDefaultMinRotPosition] and
    [kDefaultPositionOffset] are declared outside this header; the
    constructor takes them as given. *)
Record Defaults : Type := mkDefaults {
  kDefaultMaxRotVelocity : float;
  kDefaultMaxTorque : float;
  kDefaultMaxRotPosition : float;
  kDefaultMinRotPosition : float;
  kDefaultPositionOffset : float
}.

(** The members the base-class constructor [MotorModel ()] initialises;
    that constructor is outside this header, so their values are taken as
    given. *)
Record MotorModel : Type := mkBase {
  base_rot_pos : float;
  base_rot_vel : float;
  base_rot_effort : float;
  base_ref_rot_pos : float;
  base_ref_rot_vel : float;
  base_ref_rot_effort : float;
  base_sampling_time : float
}.

Section Construction.

Context {integrator : PID}.

(** The constructor, lines 39 to 51: the member initialisers, then
    [motor_ = _motor], then [InitializeParams ()].  [pid0] is the
    default-constructed integrator.  The joint is looked up in the model by
    name (line 49); here it is handed to each tick instead. *)
Definition construct (defaults : Defaults) (base : MotorModel) (pid0 : pid_t)
    (iMax_indeterminate : float) (_motor : Element) : MotorModelServo :=
  InitializeParams iMax_indeterminate
    {| motor_rot_pos_ := base_rot_pos base;
       motor_rot_vel_ := base_rot_vel base;
       motor_rot_effort_ := base_rot_effort base;
       ref_motor_rot_pos_ := base_ref_rot_pos base;
       ref_motor_rot_vel_ := base_ref_rot_vel base;
       ref_motor_rot_effort_ := base_ref_rot_effort base;
       sampling_time_ := base_sampling_time base;
       mode_ := kPosition;
       joint_name_ := EmptyString;
       turning_direction_ := spin.CCW;
       max_rot_velocity_ := kDefaultMaxRotVelocity defaults;
       max_torque_ := kDefaultMaxTorque defaults;
       max_rot_position_ := kDefaultMaxRotPosition defaults;
       min_rot_position_ := kDefaultMinRotPosition defaults;
       position_zero_offset_ := kDefaultPositionOffset defaults;
       pid_ := pid0;
       motor_ := _motor |}.

(** What the physics engine does to the joint between two ticks: it
    reports a new position, velocity and effort; the log of commands is
    kept. *)
Definition report (j : Joint.t) (reading : float * float * float) : Joint.t :=
  let '(position, velocity, effort) := reading in
  {| Joint.Position := position;
     Joint.GetVelocity := velocity;
     Joint.GetForce := effort;
     Joint.commands := Joint.commands j |}.

(** A run of ticks, one for each reading of the joint, in order. *)
Fixpoint ticks (s : MotorModelServo) (j : Joint.t)
    (readings : list (float * float * float)) : MotorModelServo * Joint.t :=
  match readings with
  | [] => (s, j)
  | reading :: rest =>
      let (s', j') := UpdateForcesAndMoments s (report j reading) in
      ticks s' j' rest
  end.

(** The members no tick writes: the mode, the spin direction, the four
    limits, the zero offset, the three reference commands, the sampling
    time, the joint name and the motor element. *)
Definition unwritten (s : MotorModelServo) :=
  (mode_ s, turning_direction_ s,
   (max_rot_velocity_ s, max_torque_ s, max_rot_position_ s,
    min_rot_position_ s),
   position_zero_offset_ s,
   (ref_motor_rot_pos_ s, ref_motor_rot_vel_ s, ref_motor_rot_effort_ s),
   sampling_time_ s, joint_name_ s, motor_ s).

End Construction.

(** The names [InitializeParams] looks up in the motor element. *)
Definition keys_read : list string :=
  ["controlMode"; "spinDirection"; "maxRotVelocity"; "maxRotPosition";
   "minRotPosition"; "zeroOffset"; "joint_control_pid"]%string.

(** The element has a child [key] whose text is [text]. *)
Definition configured (motor : Element) (key text : string) : Prop :=
  HasElement motor key = true /\ Get_string (GetElement motor key) = text.

(** ** Facts about binary64 that the proofs use *)

Section FloatFacts.




Lemma abs_opp (x : float) : abs (- x) = abs x.
Proof.
  apply Prim2SF_inj. rewrite !abs_spec, opp_spec.
  destruct (Prim2SF x); reflexivity.
Qed.

Lemma abs_abs (x : float) : abs (abs x) = abs x.
Proof.
  apply Prim2SF_inj. rewrite !abs_spec.
  destruct (Prim2SF x); reflexivity.
Qed.

(** [copysign] never changes the magnitude of its first argument. *)
Lemma copysign_magnitude (x y : float) : fabs (copysign x y) = fabs x.
Proof.
  unfold fabs, copysign. destruct (signbit y).
  - rewrite abs_opp. apply abs_abs.
  - apply abs_abs.
Qed.

Lemma SFcompare_antisym (x y : spec_float) :
  SFcompare y x = option_map CompOpp (SFcompare x y).
Proof.
  destruct x as [sx|sx| |sx mx ex], y as [sy|sy| |sy my ey]; simpl;
    try reflexivity; try (destruct sx; reflexivity);
    try (destruct sy; reflexivity); try (destruct sx, sy; reflexivity).
  destruct sx, sy; simpl; try reflexivity;
    rewrite (Z.compare_antisym ey ex); destruct (ey ?= ex)%Z; simpl;
    try reflexivity;
    pose proof (Pos.compare_cont_antisym mx my Eq) as A; simpl in A;
    rewrite <- A; try rewrite CompOpp_involutive; reflexivity.
Qed.

Lemma is_nan_SF (x : float) : is_nan x = false <-> Prim2SF x <> S754_nan.
Proof.
  unfold is_nan. rewrite eqb_spec. unfold SFeqb.
  destruct (Prim2SF x) as [s|s| |s m e]; simpl.
  - split; [discriminate | reflexivity].
  - destruct s; split; try discriminate; reflexivity.
  - split; [discriminate | congruence].
  - destruct s; rewrite Z.compare_refl, Pos.compare_cont_refl; simpl;
      split; try discriminate; reflexivity.
Qed.

(** Two numbers are always comparable. *)
Lemma ltb_false_leb (x y : float) :
  is_nan x = false -> is_nan y = false -> (x <? y) = false -> (y <=? x) = true.
Proof.
  rewrite !is_nan_SF, ltb_spec, leb_spec. unfold SFltb, SFleb.
  rewrite (SFcompare_antisym (Prim2SF x) (Prim2SF y)).
  intros Hx Hy.
  destruct (Prim2SF x) as [sx|sx| |sx mx ex], (Prim2SF y) as [sy|sy| |sy my ey];
    try congruence;
    destruct (SFcompare _ _) as [[ | | ]|] eqn:E; simpl; try congruence;
    simpl in E; try discriminate;
    try (destruct sx; discriminate); try (destruct sy; discriminate).
Qed.

Lemma leb_ltb_false (x y : float) : (x <=? y) = true -> (y <? x) = false.
Proof.
  rewrite ltb_spec, leb_spec. unfold SFltb, SFleb.
  rewrite (SFcompare_antisym (Prim2SF x) (Prim2SF y)).
  destruct (SFcompare _ _) as [[ | | ]|]; simpl; congruence.
Qed.

Lemma leb_not_nan (x y : float) :
  (x <=? y) = true -> is_nan x = false /\ is_nan y = false.
Proof.
  rewrite !is_nan_SF, leb_spec. unfold SFleb.
  destruct (Prim2SF x), (Prim2SF y); simpl; try discriminate;
    split; congruence.
Qed.

Lemma leb_refl (x : float) : is_nan x = false -> (x <=? x) = true.
Proof.
  intros H. apply ltb_false_leb; try assumption.
  rewrite ltb_spec. unfold SFltb.
  destruct (Prim2SF x) as [s|s| |s m e]; simpl; try reflexivity.
  - destruct s; reflexivity.
  - destruct s; rewrite Z.compare_refl, Pos.compare_cont_refl; reflexivity.
Qed.

Lemma ltb_leb_trans (x y z : float) :
  (x <? y) = true -> (y <=? z) = true -> (z <? x) = false.
Proof.
  rewrite !ltb_spec, leb_spec. unfold SFltb, SFleb.
  destruct (Prim2SF x) as [sx|sx| |sx mx ex], (Prim2SF y) as [sy|sy| |sy my ey],
    (Prim2SF z) as [sz|sz| |sz mz ez]; simpl;
    try discriminate; try reflexivity;
    repeat match goal with s : bool |- _ => destruct s end; simpl;
    try discriminate; try reflexivity;
    change (Pos.compare_cont Eq) with Pos.compare;
    repeat match goal with
      | |- context [(?a ?= ?b)%Z] => destruct (Z.compare_spec a b)
      | |- context [(?a ?= ?b)%positive] => destruct (Pos.compare_spec a b)
      end; simpl; intros; try discriminate; try reflexivity; lia.
Qed.

End FloatFacts.

(** ** The clamps of the reference commands *)

(** C1, evaluated on its own example.  The Force and Velocity branches hand
    [std::copysign] the reference as magnitude and the limited magnitude as
    sign.  For a reference of -50 and a limit of 10 the clamped reference is
    +50 in both branches, and +50 is the force commanded in Force mode; the
    clamp the specification describes gives -10. *)
Theorem clamp_of_minus_50_by_10 :
  let force_mode := Bench.servo kForce spin.CCW 0 0 (-50) 10 10 1 (-1) in
  let velocity_mode := Bench.servo kVelocity spin.CCW 0 (-50) 0 10 10 1 (-1) in
  ref_torque force_mode = 50
  /\ ref_vel velocity_mode = 50
  /\ applied_force force_mode (Bench.joint 0 0 0) = 50
  /\ clamp_magnitude_spec (-50) 10 = -10.
Proof. vm_compute. repeat split. Qed.

(** In both branches the clamped reference has the magnitude of the
    reference, whatever the limit is: the limit only decides the sign. *)
Lemma ref_clamps_keep_magnitude {integrator : PID} (s : MotorModelServo) :
  fabs (ref_torque s) = fabs (ref_motor_rot_effort_ s)
  /\ fabs (ref_vel s) = fabs (ref_motor_rot_vel_ s).
Proof. split; apply copysign_magnitude. Qed.

(** C6 fails on a reference that is not a number: with the limits -1 and 1
    the clamped reference is again not a number, which lies in no
    interval. *)
Lemma ref_pos_of_nan :
  let s := Bench.servo kPosition spin.CCW nan 0 0 10 10 1 (-1) in
  (min_rot_position_ s <=? max_rot_position_ s) = true
  /\ ref_pos s = nan
  /\ within (min_rot_position_ s) (max_rot_position_ s) (ref_pos s) = false.
Proof. vm_compute. repeat split. Qed.

(** C6, amended.  In Position mode, when the lower limit is at most the
    upper limit and the reference is a number, the clamped reference lies in
    [minPosition, maxPosition]: it is the upper limit for a reference above
    it, the lower limit for a reference below it, and the reference itself
    otherwise.  The error is computed from the clamped reference. *)
Theorem ref_pos_clamps_numbers {integrator : PID} (s : MotorModelServo) :
  is_nan (ref_motor_rot_pos_ s) = false ->
  (min_rot_position_ s <=? max_rot_position_ s) = true ->
  within (min_rot_position_ s) (max_rot_position_ s) (ref_pos s) = true
  /\ ((max_rot_position_ s <? ref_motor_rot_pos_ s) = true ->
      ref_pos s = max_rot_position_ s)
  /\ ((ref_motor_rot_pos_ s <? min_rot_position_ s) = true ->
      ref_pos s = min_rot_position_ s)
  /\ (within (min_rot_position_ s) (max_rot_position_ s)
        (ref_motor_rot_pos_ s) = true ->
      ref_pos s = ref_motor_rot_pos_ s)
  /\ position_err s
     = rewrap (NormalizeAngle (motor_rot_pos_ s) - NormalizeAngle (ref_pos s)).
Proof.
  intros Hr Hlim.
  unfold ref_pos, std_max, std_min, within.
  set (r := ref_motor_rot_pos_ s) in *.
  set (hi := max_rot_position_ s) in *.
  set (lo := min_rot_position_ s) in *.
  destruct (leb_not_nan lo hi Hlim) as [Hlo Hhi].
  pose proof (leb_ltb_false lo hi Hlim) as Hhl.
  repeat split.
  - destruct (hi <? r) eqn:E1.
    + rewrite Hhl, Hlim, (leb_refl hi Hhi). reflexivity.
    + destruct (r <? lo) eqn:E2.
      * rewrite (leb_refl lo Hlo), Hlim. reflexivity.
      * rewrite (ltb_false_leb r lo Hr Hlo E2), (ltb_false_leb hi r Hhi Hr E1).
        reflexivity.
  - intros E1. rewrite E1, Hhl. reflexivity.
  - intros E2. rewrite (ltb_leb_trans r lo hi E2 Hlim), E2. reflexivity.
  - intros Hin. apply andb_prop in Hin. destruct Hin as [H1 H2].
    rewrite (leb_ltb_false r hi H2), (leb_ltb_false lo r H1). reflexivity.
Qed.

(** The example of C6: a reference of 100 between the limits -1 and 1 is
    clamped to 1. *)
Lemma ref_pos_of_100 :
  let s := Bench.servo kPosition spin.CCW 100 0 0 10 10 1 (-1) in
  within (-1) 1 (ref_pos s) = true /\ ref_pos s = 1.
Proof.
  intros s.
  destruct (ref_pos_clamps_numbers s) as (Hin & Hup & _);
    [reflexivity | reflexivity | ].
  split; [exact Hin | apply Hup; reflexivity].
Defined.

(** ** The position error *)

(** C2, evaluated on its own example.  The difference of two normalized
    angles is brought down by a turn when it exceeds pi and is never brought
    up when it is below -pi.  For a measured position of 0.01 and a
    reference of 2 pi - 0.01 (inside the limits -10 and 10) the error handed
    to the integrator is about -6.263, which is not in (-pi, pi]. *)
Theorem position_err_across_the_cut :
  let s := Bench.servo kPosition spin.CCW (2 * M_PI - 0.01) 0 0 10 10 10 (-10) in
  let j := Bench.joint 0.01 0 0 in
  ref_pos (capture s j) = 2 * M_PI - 0.01
  /\ position_err (capture s j) = -6.2631853071795867
  /\ probe_calls (pid_ (fst (UpdateForcesAndMoments s j)))
     = [(-6.2631853071795867, 0.01)]
  /\ within_open_closed (- M_PI) M_PI (position_err (capture s j)) = false
  /\ (position_err (capture s j) <? - M_PI) = true.
Proof. vm_compute. repeat split. Qed.

(** ** The gains of the integrator *)

(** C3, evaluated on a complete block.  With p = 2, i = 3, d = 4, iMax = 5,
    iMin = -5, cmdMax = 10 and cmdMin = -10 configured, the integrator is
    initialised with the proportional gain 5, the value of the field iMax,
    and with an upper integral clamp that no field determines: it is
    whatever the unassigned local holds. *)
Theorem pid_block_as_initialised (iMax_indeterminate : float) :
  probe_gains
    (pid_ (InitializeParams iMax_indeterminate
             (Bench.constructed Bench.motor_with_pid)))
  = mkGains 5 3 4 iMax_indeterminate (-5) 10 (-10).
Proof. reflexivity. Qed.

(** ** The normalization of angles *)

(** C4, evaluated below zero.  The test that snaps an angle near a full
    turn to zero runs before the turn is added to a negative angle.  For
    the finite input -1e-20 the sum rounds to the full turn itself, so the
    result is [2 * M_PI], outside [0, 2 pi). *)
Theorem NormalizeAngle_of_tiny_negative :
  is_finite (-1e-20) = true
  /\ NormalizeAngle (-1e-20) = 2 * M_PI
  /\ within_half_open 0 (2 * M_PI) (NormalizeAngle (-1e-20)) = false.
Proof. vm_compute. repeat split. Qed.

(** C5, evaluated one turn apart.  The angles a = -2^-30 and
    b = a + 2 pi differ by the full turn exactly.  The first normalizes to
    just under the turn, the second is snapped to zero: they differ by
    almost a turn, not by less than 1e-8. *)
Theorem NormalizeAngle_one_turn_apart :
  let a := -0x1p-30 in
  let b := a + 2 * M_PI in
  b - a = 2 * M_PI
  /\ NormalizeAngle a = 6.2831853062482637
  /\ NormalizeAngle b = 0
  /\ (fabs (NormalizeAngle a - NormalizeAngle b) <? 1e-8) = false.
Proof. vm_compute. repeat split. Qed.

(** ** One tick *)

Section Tick.

Context {integrator : PID}.

(** What a tick logs at the joint: the earlier commands and one more. *)
Lemma commands_after_tick (s : MotorModelServo) (j : Joint.t) :
  Joint.commands (snd (UpdateForcesAndMoments s j))
  = Joint.commands j ++ [applied_force s j].
Proof.
  unfold applied_force, UpdateForcesAndMoments.
  destruct (mode_ (capture s j));
    try destruct (PID_Update _ _ _) as [force p]; simpl;
    rewrite last_last; reflexivity.
Qed.

(** The force of a tick, mode by mode. *)
Lemma applied_force_eq (s : MotorModelServo) (j : Joint.t) :
  applied_force s j
  = double_of_int (turning_direction_ s)
    * match mode_ s with
      | kPosition =>
          fst (PID_Update (pid_ s) (position_err (capture s j))
                 (sampling_time_ s))
      | kForce => ref_torque s
      | kVelocity =>
          fst (PID_Update (pid_ s) (velocity_err (capture s j))
                 (sampling_time_ s))
      end.
Proof.
  unfold applied_force, UpdateForcesAndMoments. simpl.
  destruct (mode_ s);
    try destruct (PID_Update _ _ _) as [force p]; simpl;
    rewrite last_last; reflexivity.
Qed.

End Tick.



(** Force mode on every input.  A tick commands the spin direction times
    [ref_torque], the value lines 180 to 182 compute, and leaves the
    integrator as it was: its [Update] is not called.  [ref_torque] is not
    the reference limited to the torque limit: it has the magnitude of the
    reference and the sign of the limit. *)
Theorem force_mode_leaves_pid {integrator : PID}
    (s : MotorModelServo) (j : Joint.t) :
  mode_ s = kForce ->
  applied_force s j = double_of_int (turning_direction_ s) * ref_torque s
  /\ Joint.commands (snd (UpdateForcesAndMoments s j))
     = Joint.commands j
       ++ [double_of_int (turning_direction_ s) * ref_torque s]
  /\ pid_ (fst (UpdateForcesAndMoments s j)) = pid_ s
  /\ fst (UpdateForcesAndMoments s j) = capture s j.
Proof.
  intros Hmode.
  rewrite commands_after_tick, applied_force_eq, Hmode.
  repeat split.
  - unfold UpdateForcesAndMoments. simpl. rewrite Hmode. reflexivity.
  - unfold UpdateForcesAndMoments. simpl. rewrite Hmode. reflexivity.
Qed.

Lemma force_mode_leaves_pid_witness :
  let s := Bench.servo kForce spin.CW 0 0 4 10 10 1 (-1) in
  let j := Bench.joint 0.5 0 0 in
  applied_force s j = -4
  /\ probe_calls (pid_ (fst (UpdateForcesAndMoments s j))) = [].
Proof.
  intros s j.
  destruct (force_mode_leaves_pid s j) as (Hforce & _ & Hpid & _);
    [reflexivity | ].
  split.
  - rewrite Hforce. reflexivity.
  - rewrite Hpid. reflexivity.
Defined.

(** C8, evaluated on the example of C1.  In Force mode, with a reference
    effort of -50, a torque limit of 10 and the spin direction CCW, the tick
    commands +50 to the joint, where the spin direction times the reference
    clamped to the limit is -10.  The integrator is left alone on this
    input as on every other: no call of [Update] is recorded. *)
Theorem force_mode_command_of_minus_50 :
  let s := Bench.servo kForce spin.CCW 0 0 (-50) 10 10 1 (-1) in
  let j := Bench.joint 0 0 0 in
  applied_force s j = 50
  /\ Joint.commands (snd (UpdateForcesAndMoments s j)) = [50]
  /\ double_of_int (turning_direction_ s)
     * clamp_magnitude_spec (ref_motor_rot_effort_ s) (max_torque_ s) = -10
  /\ probe_calls (pid_ (fst (UpdateForcesAndMoments s j))) = [].
Proof. vm_compute. repeat split. Qed.

(** C9.  Two controllers that differ in the zero offset only command the
    same force from the same joint state, in every mode, and leave the same
    joint and the same integrator behind: the tick does not read
    [position_zero_offset_]. *)
Theorem zero_offset_noninterference {integrator : PID}
    (s1 s2 : MotorModelServo) (j : Joint.t) :
  s2 = set_position_zero_offset s1 (position_zero_offset_ s2) ->
  applied_force s1 j = applied_force s2 j
  /\ snd (UpdateForcesAndMoments s1 j) = snd (UpdateForcesAndMoments s2 j)
  /\ pid_ (fst (UpdateForcesAndMoments s1 j))
     = pid_ (fst (UpdateForcesAndMoments s2 j)).
Proof.
  intros H. rewrite H. clear H.
  generalize (position_zero_offset_ s2). intros offset.
  unfold applied_force, UpdateForcesAndMoments. simpl.
  destruct (mode_ s1); simpl.
  - change (velocity_err (capture (set_position_zero_offset s1 offset) j))
      with (velocity_err (capture s1 j)).
    destruct (PID_Update _ _ _) as [force p]. repeat split.
  - change (position_err (capture (set_position_zero_offset s1 offset) j))
      with (position_err (capture s1 j)).
    destruct (PID_Update _ _ _) as [force p]. repeat split.
  - repeat split.
Qed.

Lemma zero_offset_noninterference_witness :
  let s1 := Bench.servo kPosition spin.CCW 0.5 0 0 10 10 1 (-1) in
  let s2 := set_position_zero_offset s1 0.25 in
  let j := Bench.joint 0.75 0 0 in
  position_zero_offset_ s1 = 0 /\ position_zero_offset_ s2 = 0.25
  /\ applied_force s1 j = 0.25 /\ applied_force s2 j = 0.25.
Proof.
  intros s1 s2 j.
  destruct (zero_offset_noninterference s1 s2 j)
    as (Hforce & _); [reflexivity | ].
  split; [reflexivity | split; [reflexivity | split; [reflexivity | ]]].
  rewrite <- Hforce. reflexivity.
Defined.

(** C10.  A tick replaces the three measured-state members by what the
    joint reports and, through [Update], the integrator; every other member
    is unchanged: the mode, the spin direction, the four limits, the zero
    offset, the three reference commands and the sampling time.  The joint
    receives exactly one force command, and what it reports is unchanged. *)
Theorem tick_frame {integrator : PID} (s : MotorModelServo) (j : Joint.t) :
  let s' := fst (UpdateForcesAndMoments s j) in
  let j' := snd (UpdateForcesAndMoments s j) in
  s' = set_pid (capture s j) (pid_ s')
  /\ (motor_rot_pos_ s' = Joint.Position j
      /\ motor_rot_vel_ s' = Joint.GetVelocity j
      /\ motor_rot_effort_ s' = Joint.GetForce j)
  /\ (mode_ s' = mode_ s
      /\ turning_direction_ s' = turning_direction_ s
      /\ max_rot_velocity_ s' = max_rot_velocity_ s
      /\ max_torque_ s' = max_torque_ s
      /\ max_rot_position_ s' = max_rot_position_ s
      /\ min_rot_position_ s' = min_rot_position_ s
      /\ position_zero_offset_ s' = position_zero_offset_ s)
  /\ (ref_motor_rot_pos_ s' = ref_motor_rot_pos_ s
      /\ ref_motor_rot_vel_ s' = ref_motor_rot_vel_ s
      /\ ref_motor_rot_effort_ s' = ref_motor_rot_effort_ s
      /\ sampling_time_ s' = sampling_time_ s)
  /\ (Joint.commands j' = Joint.commands j ++ [applied_force s j]
      /\ List.length (Joint.commands j') = S (List.length (Joint.commands j)))
  /\ (Joint.Position j' = Joint.Position j
      /\ Joint.GetVelocity j' = Joint.GetVelocity j
      /\ Joint.GetForce j' = Joint.GetForce j).
Proof.
  cbv zeta.
  rewrite commands_after_tick, length_app, Nat.add_comm.
  unfold UpdateForcesAndMoments. simpl.
  destruct (mode_ s) eqn:Hmode;
    try destruct (PID_Update _ _ _) as [force p]; simpl;
    repeat split; exact Hmode.
Qed.

(** ** More facts about binary64 *)

Section FloatEdges.

Lemma Prim2SF_nan (x : float) : Prim2SF x = S754_nan -> x = nan.
Proof. intros H. apply Prim2SF_inj. rewrite H. reflexivity. Qed.

Lemma is_nan_true (x : float) : is_nan x = true -> x = nan.
Proof.
  intros H. apply Prim2SF_nan.
  destruct (is_nan x) eqn:E; [ | discriminate].
  destruct (Prim2SF x) eqn:Ex; try reflexivity;
    (assert (N : is_nan x = false) by (apply is_nan_SF; rewrite Ex; discriminate);
     congruence).
Qed.

Lemma ltb_nan_l (x : float) : (nan <? x) = false.
Proof. rewrite ltb_spec. reflexivity. Qed.

Lemma ltb_nan_r (x : float) : (x <? nan) = false.
Proof.
  rewrite ltb_spec. change (Prim2SF nan) with S754_nan.
  unfold SFltb. destruct (Prim2SF x); reflexivity.
Qed.

Lemma sub_nan_l (x : float) : nan - x = nan.
Proof. apply Prim2SF_inj. rewrite sub_spec. reflexivity. Qed.

Lemma sub_nan_r (x : float) : x - nan = nan.
Proof.
  apply Prim2SF_inj. rewrite sub_spec. change (Prim2SF nan) with S754_nan.
  unfold SF64sub, SFsub. destruct (Prim2SF x); reflexivity.
Qed.

Lemma mul_nan_r (x : float) : x * nan = nan.
Proof.
  apply Prim2SF_inj. rewrite mul_spec. change (Prim2SF nan) with S754_nan.
  unfold SF64mul, SFmul. destruct (Prim2SF x); reflexivity.
Qed.

(** A value that is not finite is the NaN or one of the two infinities. *)
Lemma not_finite_cases (x : float) :
  is_finite x = false -> x = nan \/ x = infinity \/ x = neg_infinity.
Proof.
  unfold is_finite. intros H. apply negb_false_iff, orb_true_iff in H.
  destruct H as [H | H].
  - left. apply is_nan_true, H.
  - right. unfold is_infinity in H. rewrite eqb_spec, abs_spec in H.
    change (Prim2SF infinity) with (S754_infinity false) in H.
    destruct (Prim2SF x) as [s|s| |s m e] eqn:Ex; simpl in H; try discriminate.
    destruct s; [right | left]; apply Prim2SF_inj; rewrite Ex; reflexivity.
Qed.

Lemma leb_ltb_trans (x y z : float) :
  (x <=? y) = true -> (y <? z) = true -> (x <? z) = true.
Proof.
  rewrite !ltb_spec, leb_spec. unfold SFltb, SFleb.
  destruct (Prim2SF x) as [sx|sx| |sx mx ex], (Prim2SF y) as [sy|sy| |sy my ey],
    (Prim2SF z) as [sz|sz| |sz mz ez]; simpl;
    try discriminate; try reflexivity;
    repeat match goal with s : bool |- _ => destruct s end; simpl;
    try discriminate; try reflexivity;
    change (Pos.compare_cont Eq) with Pos.compare;
    repeat match goal with
      | |- context [(?a ?= ?b)%Z] => destruct (Z.compare_spec a b)
      | |- context [(?a ?= ?b)%positive] => destruct (Pos.compare_spec a b)
      end; simpl; intros; try discriminate; try reflexivity; lia.
Qed.

End FloatEdges.

Section FloatSigns.

Lemma signbit_pos (y : float) : (0 <? y) = true -> signbit y = false.
Proof.
  intros H. rewrite ltb_spec in H.
  change (Prim2SF 0) with (S754_zero false) in H. unfold SFltb in H.
  assert (Z : (y =? zero) = false).
  { rewrite eqb_spec. change (Prim2SF zero) with (S754_zero false).
    unfold SFeqb.
    destruct (Prim2SF y) as [s|s| |s m e]; simpl in *; try discriminate;
      destruct s; try discriminate; reflexivity. }
  assert (L : (y <? 0) = false).
  { rewrite ltb_spec. change (Prim2SF 0) with (S754_zero false).
    unfold SFltb.
    destruct (Prim2SF y) as [s|s| |s m e]; simpl in *; try discriminate;
      destruct s; try discriminate; reflexivity. }
  unfold signbit, get_sign, is_zero. rewrite Z. exact L.
Qed.

Lemma signbit_neg (y : float) : (y <? 0) = true -> signbit y = true.
Proof.
  intros H. pose proof H as H'. rewrite ltb_spec in H'.
  change (Prim2SF 0) with (S754_zero false) in H'. unfold SFltb in H'.
  assert (Z : (y =? zero) = false).
  { rewrite eqb_spec. change (Prim2SF zero) with (S754_zero false).
    unfold SFeqb.
    destruct (Prim2SF y) as [s|s| |s m e]; simpl in *; try discriminate;
      destruct s; try discriminate; reflexivity. }
  unfold signbit, get_sign, is_zero. rewrite Z. exact H.
Qed.

Lemma signbit_abs (x : float) : signbit (abs x) = false.
Proof.
  pose proof (abs_spec x) as A.
  destruct (Prim2SF x) as [s|s| |s m e]; simpl in A.
  - replace (abs x) with 0 by (apply Prim2SF_inj; rewrite A; reflexivity).
    reflexivity.
  - replace (abs x) with infinity
      by (apply Prim2SF_inj; rewrite A; reflexivity).
    reflexivity.
  - replace (abs x) with nan by (apply Prim2SF_inj; rewrite A; reflexivity).
    reflexivity.
  - unfold signbit, get_sign, is_zero. rewrite eqb_spec, A.
    change (Prim2SF zero) with (S754_zero false). simpl.
    rewrite ltb_spec, A. reflexivity.
Qed.

Lemma ltb_neg_abs (l x : float) :
  (l <? 0) = true -> is_nan x = false -> (l <? abs x) = true.
Proof.
  rewrite is_nan_SF, !ltb_spec, abs_spec.
  change (Prim2SF 0) with (S754_zero false). unfold SFltb.
  destruct (Prim2SF l) as [s|s| |s m e], (Prim2SF x) as [t|t| |t n f]; simpl;
    try discriminate; try congruence;
    destruct s; simpl; try discriminate; reflexivity.
Qed.

End FloatSigns.

(** ** InitializeParams and the constructor *)

Section Configuration.

Context {integrator : PID}.

(** X1.  When the motor element has none of the seven children
    [InitializeParams] looks up, whatever else it holds, the call leaves
    every member as it was except the integrator, which is initialised with
    seven zeros. *)
Theorem InitializeParams_without_keys (v : float) (s : MotorModelServo) :
  (forall name, In name keys_read -> HasElement (motor_ s) name = false) ->
  InitializeParams v s = set_pid s (PID_Init (mkGains 0 0 0 0 0 0 0)).
Proof.
  intros H.
  unfold InitializeParams, controlMode, spinDirection, getSdfParam,
    joint_control_pid, set_pid.
  rewrite !H by (simpl; tauto).
  reflexivity.
Qed.

Lemma controlMode_idem (motor : Element) (mode : ControlMode) :
  controlMode motor (controlMode motor mode) = controlMode motor mode.
Proof.
  unfold controlMode. destruct (HasElement motor "controlMode"); [ | reflexivity].
  repeat match goal with |- context [if ?b then _ else _] => destruct b end;
    reflexivity.
Qed.

Lemma spinDirection_idem (motor : Element) (direction : Z) :
  spinDirection motor (spinDirection motor direction)
  = spinDirection motor direction.
Proof.
  unfold spinDirection.
  destruct (HasElement motor "spinDirection"); [ | reflexivity].
  destruct (String.eqb _ _); reflexivity.
Qed.

Lemma getSdfParam_idem (sdf : Element) (name : string) (d : float) :
  getSdfParam sdf name (getSdfParam sdf name d) = getSdfParam sdf name d.
Proof. unfold getSdfParam. destruct (HasElement sdf name); reflexivity. Qed.

(** X2.  The unassigned local [iMax] is read afresh by each call: [v1] is
    what it holds in a first call of [InitializeParams] and [v2] what it
    holds in a second.  The second call leaves exactly what it would have
    left had the first not run; the first call shows in nothing.  When the
    element has no [joint_control_pid] child the local is not used, and the
    second call changes nothing. *)
Theorem InitializeParams_twice (v1 v2 : float) (s : MotorModelServo) :
  InitializeParams v2 (InitializeParams v1 s) = InitializeParams v2 s
  /\ (HasElement (motor_ s) "joint_control_pid" = false ->
      InitializeParams v2 (InitializeParams v1 s) = InitializeParams v1 s).
Proof.
  assert (E : InitializeParams v2 (InitializeParams v1 s)
              = InitializeParams v2 s).
  { unfold InitializeParams. simpl.
    rewrite controlMode_idem, spinDirection_idem, !getSdfParam_idem.
    reflexivity. }
  split; [exact E | ].
  intros H. rewrite E. unfold InitializeParams, joint_control_pid.
  rewrite H. reflexivity.
Qed.

(** X3.  A constructed controller is in velocity mode exactly when the
    element names "velocity", in force mode exactly when it names "force",
    and in position mode in every other case: "position", any other text,
    or no [controlMode] child at all. *)
Theorem construct_mode (defaults : Defaults) (base : MotorModel) (pid0 : pid_t)
    (v : float) (motor : Element) :
  let s := construct defaults base pid0 v motor in
  (mode_ s = kVelocity <-> configured motor "controlMode" "velocity")
  /\ (mode_ s = kForce <-> configured motor "controlMode" "force")
  /\ (mode_ s = kPosition <->
      ~ configured motor "controlMode" "velocity"
      /\ ~ configured motor "controlMode" "force").
Proof.
  unfold construct, InitializeParams, configured. simpl. unfold controlMode.
  destruct (HasElement motor "controlMode");
    [ | intuition (try discriminate; try congruence)].
  destruct (String.eqb_spec (Get_string (GetElement motor "controlMode"))
              "velocity") as [E | E];
    [ | destruct (String.eqb_spec (Get_string (GetElement motor "controlMode"))
                    "position") as [E1 | E1];
        [ | destruct (String.eqb_spec
                        (Get_string (GetElement motor "controlMode")) "force")
              as [E2 | E2] ] ];
    intuition (try discriminate; try congruence).
Qed.

(** X4.  A constructed controller turns CW exactly when the element has a
    [spinDirection] child with the text "cw"; in every other case ("ccw",
    any other text, no such child) it turns CCW. *)
Theorem construct_direction (defaults : Defaults) (base : MotorModel)
    (pid0 : pid_t) (v : float) (motor : Element) :
  let s := construct defaults base pid0 v motor in
  (turning_direction_ s = spin.CW <-> configured motor "spinDirection" "cw")
  /\ (turning_direction_ s = spin.CCW <->
      ~ configured motor "spinDirection" "cw").
Proof.
  unfold construct, InitializeParams, configured. simpl. unfold spinDirection.
  destruct (HasElement motor "spinDirection");
    [ | intuition (try discriminate; try congruence)].
  destruct (String.eqb_spec (Get_string (GetElement motor "spinDirection"))
              "cw") as [E | E];
    intuition (try discriminate; try congruence).
Qed.

(** X5.  [InitializeParams] never turns a CW controller into a CCW one:
    a controller that turns CW keeps turning CW whatever the element
    holds, the text "ccw" included. *)
Theorem InitializeParams_keeps_CW (v : float) (s : MotorModelServo) :
  turning_direction_ s = spin.CW ->
  turning_direction_ (InitializeParams v s) = spin.CW.
Proof.
  intros H. unfold InitializeParams. simpl. unfold spinDirection.
  destruct (HasElement _ _); [ | exact H].
  destruct (String.eqb _ _); [reflexivity | exact H].
Qed.

(** X6.  The torque limit of a constructed controller is the default one
    whatever the element holds, and nothing of the default-constructed
    integrator survives the construction. *)
Theorem construct_torque_and_pid (defaults : Defaults) (base : MotorModel)
    (pid0 pid1 : pid_t) (v : float) (motor : Element) :
  max_torque_ (construct defaults base pid0 v motor)
  = kDefaultMaxTorque defaults
  /\ construct defaults base pid0 v motor
     = construct defaults base pid1 v motor.
Proof. split; reflexivity. Qed.

End Configuration.

Lemma InitializeParams_without_keys_witness :
  let motor := Node [("jointName", Text "servo_joint");
                     ("maxTorque", Number 3)]%string in
  let s := Bench.constructed motor in
  InitializeParams 7 s = s /\ max_torque_ (InitializeParams 7 s) = 10.
Proof.
  intros motor s.
  assert (H : InitializeParams 7 s
              = set_pid s (PID_Init (mkGains 0 0 0 0 0 0 0))).
  { apply (InitializeParams_without_keys 7 s).
    intros name Hin. simpl in Hin.
    repeat (destruct Hin as [<- | Hin]; [reflexivity | ]).
    destruct Hin. }
  rewrite H. split; reflexivity.
Defined.

Lemma InitializeParams_keeps_CW_witness :
  let motor := Node [("spinDirection", Text "ccw")]%string in
  let s := set_turning_direction (Bench.constructed motor) spin.CW in
  turning_direction_ (InitializeParams 0 s) = spin.CW.
Proof.
  intros motor s. apply (InitializeParams_keeps_CW 0 s). reflexivity.
Defined.

(** ** The clamps on every input *)

Section Clamps.

Context {integrator : PID}.

(** X7.  With a positive torque limit the reference effort of Force mode
    loses its sign and keeps its magnitude, [ref_torque = |ref|]; with a
    negative limit it is [- |ref|].  The same holds for the reference
    velocity and the velocity limit. *)
Theorem ref_clamps_take_sign_of_limit (s : MotorModelServo) :
  ((0 <? max_torque_ s) = true ->
   ref_torque s = fabs (ref_motor_rot_effort_ s))
  /\ ((max_torque_ s <? 0) = true ->
      ref_torque s = - fabs (ref_motor_rot_effort_ s))
  /\ ((0 <? max_rot_velocity_ s) = true ->
      ref_vel s = fabs (ref_motor_rot_vel_ s))
  /\ ((max_rot_velocity_ s <? 0) = true ->
      ref_vel s = - fabs (ref_motor_rot_vel_ s)).
Proof.
  assert (P : forall r l, (0 <? l) = true ->
                copysign r (std_min (fabs r) l) = fabs r).
  { intros r l H. unfold copysign, std_min, fabs.
    destruct (l <? abs r).
    - rewrite (signbit_pos l H). reflexivity.
    - rewrite signbit_abs. reflexivity. }
  assert (N : forall r l, (l <? 0) = true ->
                copysign r (std_min (fabs r) l) = - fabs r).
  { intros r l H. unfold copysign, std_min, fabs.
    destruct (is_nan r) eqn:E.
    - apply is_nan_true in E. subst r.
      change (abs nan) with nan. rewrite ltb_nan_r. reflexivity.
    - rewrite (ltb_neg_abs l r H E), (signbit_neg l H). reflexivity. }
  unfold ref_torque, ref_vel. repeat split; intros H; auto.
Qed.

(** X8.  When the lower position limit lies above the upper one, every
    reference that is a number is replaced by the lower limit. *)
Theorem ref_pos_with_inverted_limits (s : MotorModelServo) :
  is_nan (ref_motor_rot_pos_ s) = false ->
  (max_rot_position_ s <? min_rot_position_ s) = true ->
  ref_pos s = min_rot_position_ s.
Proof.
  intros Hr Hlim. unfold ref_pos, std_max, std_min.
  destruct (max_rot_position_ s <? ref_motor_rot_pos_ s) eqn:E.
  - rewrite Hlim. reflexivity.
  - assert (Hhi : is_nan (max_rot_position_ s) = false).
    { destruct (is_nan (max_rot_position_ s)) eqn:N; [ | reflexivity].
      apply is_nan_true in N. rewrite N, ltb_nan_l in Hlim. discriminate. }
    rewrite (leb_ltb_trans _ _ _ (ltb_false_leb _ _ Hhi Hr E) Hlim).
    reflexivity.
Qed.

(** A reference position that is not a number passes through the clamp,
    whatever the limits are. *)
Lemma ref_pos_passes_nan (s : MotorModelServo) :
  is_nan (ref_motor_rot_pos_ s) = true -> ref_pos s = nan.
Proof.
  intros H. apply is_nan_true in H. unfold ref_pos, std_max, std_min.
  rewrite H, ltb_nan_r, ltb_nan_l. reflexivity.
Qed.

End Clamps.

(** ** Values that are not numbers *)

Section NotANumber.

Context {integrator : PID}.

Lemma NormalizeAngle_not_finite (x : float) :
  is_finite x = false -> NormalizeAngle x = nan.
Proof.
  intros H. destruct (not_finite_cases x H) as [-> | [-> | ->]]; reflexivity.
Qed.

Lemma copysign_nan (y : float) : copysign nan y = nan.
Proof. unfold copysign. destruct (signbit y); reflexivity. Qed.

(** X9.  In Position mode nothing is validated: when the joint reports a
    position that is not finite, or the reference position is not a number,
    the error handed to the integrator is not a number, whatever the limits
    are, and the force commanded is the spin direction times whatever the
    integrator answers to it. *)
Theorem position_tick_passes_nan (s : MotorModelServo) (j : Joint.t) :
  mode_ s = kPosition ->
  is_finite (Joint.Position j) = false
  \/ is_nan (ref_motor_rot_pos_ s) = true ->
  position_err (capture s j) = nan
  /\ applied_force s j
     = double_of_int (turning_direction_ s)
       * fst (PID_Update (pid_ s) nan (sampling_time_ s)).
Proof.
  intros Hmode H.
  assert (E : position_err (capture s j) = nan).
  { unfold position_err. destruct H as [H | H].
    - change (motor_rot_pos_ (capture s j)) with (Joint.Position j).
      rewrite (NormalizeAngle_not_finite _ H), sub_nan_l. reflexivity.
    - rewrite (ref_pos_passes_nan (capture s j) H).
      change (NormalizeAngle nan) with nan. rewrite sub_nan_r. reflexivity. }
  split; [exact E | ].
  rewrite applied_force_eq, Hmode, E. reflexivity.
Qed.

(** X10.  Force and Velocity mode validate nothing either.  In Force mode a
    reference effort that is not a number is commanded as such, whatever the
    torque limit and the spin direction are.  In Velocity mode the error
    handed to the integrator is not a number as soon as the measured or the
    reference velocity is not. *)
Theorem force_and_velocity_tick_pass_nan (s : MotorModelServo) (j : Joint.t) :
  (mode_ s = kForce -> is_nan (ref_motor_rot_effort_ s) = true ->
   applied_force s j = nan)
  /\ (is_nan (Joint.GetVelocity j) = true
      \/ is_nan (ref_motor_rot_vel_ s) = true ->
      velocity_err (capture s j) = nan).
Proof.
  split.
  - intros Hmode H. apply is_nan_true in H.
    rewrite applied_force_eq, Hmode. unfold ref_torque.
    rewrite H, copysign_nan. apply mul_nan_r.
  - intros [H | H]; apply is_nan_true in H; unfold velocity_err.
    + change (motor_rot_vel_ (capture s j)) with (Joint.GetVelocity j).
      rewrite H. apply sub_nan_l.
    + unfold ref_vel.
      change (ref_motor_rot_vel_ (capture s j)) with (ref_motor_rot_vel_ s).
      rewrite H, copysign_nan. apply sub_nan_r.
Qed.

End NotANumber.

(** ** What a tick reads, and runs of ticks *)

Section Runs.

Context {integrator : PID}.

(** X11.  A tick reads from the joint only what its mode needs: in Position
    mode the velocity and the effort the joint reports are without
    influence on the force, in Velocity mode the position and the effort,
    and in Force mode all three.  In no mode does it read the measured
    state an earlier tick left in the members. *)
Theorem tick_reads_what_the_mode_needs (s : MotorModelServo)
    (j0 j1 j2 : Joint.t) :
  (mode_ s = kPosition -> Joint.Position j1 = Joint.Position j2 ->
   applied_force s j1 = applied_force s j2)
  /\ (mode_ s = kVelocity -> Joint.GetVelocity j1 = Joint.GetVelocity j2 ->
      applied_force s j1 = applied_force s j2)
  /\ (mode_ s = kForce -> applied_force s j1 = applied_force s j2)
  /\ UpdateForcesAndMoments (capture s j0) j1 = UpdateForcesAndMoments s j1.
Proof.
  rewrite !applied_force_eq.
  repeat split; intros Hmode; rewrite Hmode; try reflexivity; intros H.
  - unfold position_err.
    change (motor_rot_pos_ (capture s j1)) with (Joint.Position j1).
    change (motor_rot_pos_ (capture s j2)) with (Joint.Position j2).
    rewrite H. reflexivity.
  - unfold velocity_err.
    change (motor_rot_vel_ (capture s j1)) with (Joint.GetVelocity j1).
    change (motor_rot_vel_ (capture s j2)) with (Joint.GetVelocity j2).
    rewrite H. reflexivity.
Qed.

Lemma tick_unwritten (s : MotorModelServo) (j : Joint.t) :
  unwritten (fst (UpdateForcesAndMoments s j)) = unwritten s.
Proof.
  unfold UpdateForcesAndMoments. simpl.
  destruct (mode_ s) eqn:E;
    try destruct (PID_Update _ _ _) as [force p]; unfold unwritten; simpl;
    rewrite E; reflexivity.
Qed.

(** X12.  Over a run of ticks the members no tick writes keep their
    values, the commands logged at the joint before the run are kept in
    place, and the run adds exactly one command for each tick. *)
Theorem ticks_invariant (readings : list (float * float * float))
    (s : MotorModelServo) (j : Joint.t) :
  unwritten (fst (ticks s j readings)) = unwritten s
  /\ exists added,
       Joint.commands (snd (ticks s j readings)) = Joint.commands j ++ added
       /\ List.length added = List.length readings.
Proof.
  revert s j. induction readings as [ | r rest IH]; intros s j.
  - split; [reflexivity | ]. exists []. split; [ | reflexivity].
    simpl. rewrite app_nil_r. reflexivity.
  - simpl.
    pose proof (tick_unwritten s (report j r)) as U.
    pose proof (commands_after_tick s (report j r)) as C.
    destruct (UpdateForcesAndMoments s (report j r)) as [s' j'].
    simpl in U, C.
    destruct (IH s' j') as (IHu & added & IHc & IHl).
    split; [rewrite IHu; exact U | ].
    exists (applied_force s (report j r) :: added). split.
    + rewrite IHc, C. destruct r as [[p v] e]. simpl.
      rewrite <- app_assoc. reflexivity.
    + simpl. rewrite IHl. reflexivity.
Qed.

(** X13.  A run of ticks in Force mode repeats one and the same command,
    the spin direction times [ref_torque], once for each tick, whatever the
    joint reports in between, and leaves the integrator as it was. *)
Theorem ticks_in_force_mode (readings : list (float * float * float))
    (s : MotorModelServo) (j : Joint.t) :
  mode_ s = kForce ->
  Joint.commands (snd (ticks s j readings))
  = Joint.commands j
    ++ repeat (double_of_int (turning_direction_ s) * ref_torque s)
         (List.length readings)
  /\ pid_ (fst (ticks s j readings)) = pid_ s.
Proof.
  revert s j. induction readings as [ | r rest IH]; intros s j Hmode.
  - simpl. rewrite app_nil_r. split; reflexivity.
  - simpl. unfold UpdateForcesAndMoments.
    change (mode_ (capture s (report j r))) with (mode_ s). rewrite Hmode.
    destruct (IH (capture s (report j r))
                (Joint.SetForce (report j r)
                   (double_of_int (turning_direction_ (capture s (report j r)))
                    * ref_torque (capture s (report j r)))) Hmode)
      as [IHc IHp].
    split.
    + rewrite IHc. destruct r as [[p v] e]. simpl.
      rewrite <- app_assoc. reflexivity.
    + rewrite IHp. reflexivity.
Qed.

End Runs.

Lemma probe_tick (s : @MotorModelServo ProbePID) (j : Joint.t) :
  mode_ s <> kForce ->
  exists err,
    pid_ (fst (UpdateForcesAndMoments s j))
    = mkProbe (probe_gains (pid_ s))
        (probe_calls (pid_ s) ++ [(err, sampling_time_ s)])
    /\ mode_ (fst (UpdateForcesAndMoments s j)) = mode_ s
    /\ sampling_time_ (fst (UpdateForcesAndMoments s j)) = sampling_time_ s.
Proof.
  intros Hmode. unfold UpdateForcesAndMoments.
  change (mode_ (capture s j)) with (mode_ s).
  destruct (mode_ s) eqn:E; [ | | contradiction]; simpl;
    eexists; repeat split; exact E.
Qed.

(** X14.  In Position and Velocity mode a run of ticks calls [Update] of
    the integrator exactly once for each tick, each time with the sampling
    time as the elapsed time; the gains are not touched. *)
Theorem ticks_call_Update_once_each (readings : list (float * float * float))
    (s : @MotorModelServo ProbePID) (j : Joint.t) :
  mode_ s <> kForce ->
  exists calls,
    probe_calls (pid_ (fst (ticks s j readings))) = probe_calls (pid_ s) ++ calls
    /\ List.length calls = List.length readings
    /\ Forall (fun call => snd call = sampling_time_ s) calls
    /\ probe_gains (pid_ (fst (ticks s j readings))) = probe_gains (pid_ s).
Proof.
  revert s j. induction readings as [ | r rest IH]; intros s j Hmode.
  - exists []. simpl. rewrite app_nil_r. repeat split. constructor.
  - simpl.
    destruct (probe_tick s (report j r) Hmode) as (err & Hp & Hm & Ht).
    destruct (UpdateForcesAndMoments s (report j r)) as [s' j'].
    simpl in Hp, Hm, Ht.
    destruct (IH s' j') as (calls & Hc & Hl & Hf & Hg);
      [rewrite Hm; exact Hmode | ].
    exists ((err, sampling_time_ s) :: calls).
    rewrite Hc, Hg, Hp. simpl. rewrite <- app_assoc, Hl.
    repeat split. constructor; [reflexivity | ].
    rewrite <- Ht. exact Hf.
Qed.

(** ** The properties above on the bench *)

Lemma ref_clamps_take_sign_of_limit_witness :
  ref_torque (Bench.servo kForce spin.CCW 0 0 (-50) 10 10 1 (-1)) = 50
  /\ ref_vel (Bench.servo kVelocity spin.CCW 0 3 0 (-10) 10 1 (-1)) = -3.
Proof.
  split.
  - destruct (ref_clamps_take_sign_of_limit
                (Bench.servo kForce spin.CCW 0 0 (-50) 10 10 1 (-1)))
      as (H & _).
    rewrite H; reflexivity.
  - destruct (ref_clamps_take_sign_of_limit
                (Bench.servo kVelocity spin.CCW 0 3 0 (-10) 10 1 (-1)))
      as (_ & _ & _ & H).
    rewrite H; reflexivity.
Defined.

Lemma ref_pos_with_inverted_limits_witness :
  ref_pos (Bench.servo kPosition spin.CCW 0.5 0 0 10 10 (-1) 1) = 1.
Proof.
  apply (ref_pos_with_inverted_limits
           (Bench.servo kPosition spin.CCW 0.5 0 0 10 10 (-1) 1));
    reflexivity.
Defined.

Lemma position_tick_passes_nan_witness :
  let s := Bench.servo kPosition spin.CCW 0.5 0 0 10 10 1 (-1) in
  let j := Bench.joint infinity 0 0 in
  position_err (capture s j) = nan /\ applied_force s j = nan.
Proof.
  intros s j.
  destruct (position_tick_passes_nan s j) as (He & Hf);
    [reflexivity | left; reflexivity | ].
  split; [exact He | rewrite Hf; reflexivity].
Defined.

Lemma force_and_velocity_tick_pass_nan_witness :
  let s := Bench.servo kForce spin.CW 0 0 nan 10 10 1 (-1) in
  let s' := Bench.servo kVelocity spin.CW 0 nan 0 10 10 1 (-1) in
  let j := Bench.joint 0 1 0 in
  applied_force s j = nan /\ velocity_err (capture s' j) = nan.
Proof.
  intros s s' j. split.
  - destruct (force_and_velocity_tick_pass_nan s j) as (H & _).
    apply H; reflexivity.
  - destruct (force_and_velocity_tick_pass_nan s' j) as (_ & H).
    apply H. right. reflexivity.
Defined.

Lemma tick_reads_what_the_mode_needs_witness :
  let s := Bench.servo kPosition spin.CCW 0.5 0 0 10 10 1 (-1) in
  applied_force s (Bench.joint 0.75 2 3) = applied_force s (Bench.joint 0.75 0 0)
  /\ applied_force s (Bench.joint 0.75 0 0) = 0.25.
Proof.
  intros s.
  destruct (tick_reads_what_the_mode_needs s (Bench.joint 0 0 0)
              (Bench.joint 0.75 2 3) (Bench.joint 0.75 0 0)) as (H & _).
  split; [apply H; reflexivity | reflexivity].
Defined.

Lemma ticks_in_force_mode_witness :
  let s := Bench.servo kForce spin.CW 0 0 4 10 10 1 (-1) in
  let run := ticks s (Bench.joint 0 0 0) [(0.1, 1, 0); (0.2, 2, 0); (0.3, 3, 0)] in
  Joint.commands (snd run) = [-4; -4; -4]
  /\ probe_calls (pid_ (fst run)) = [].
Proof.
  intros s run.
  destruct (ticks_in_force_mode [(0.1, 1, 0); (0.2, 2, 0); (0.3, 3, 0)] s
              (Bench.joint 0 0 0)) as (Hc & Hp); [reflexivity | ].
  split.
  - unfold run. rewrite Hc. reflexivity.
  - unfold run. rewrite Hp. reflexivity.
Defined.

Lemma ticks_call_Update_once_each_witness :
  let s := Bench.servo kVelocity spin.CCW 0 3 0 10 10 1 (-1) in
  let run := ticks s (Bench.joint 0 0 0) [(0, 1, 0); (0, 2, 0)] in
  probe_calls (pid_ (fst run)) = [(-2, 0.01); (-1, 0.01)]
  /\ exists calls,
       probe_calls (pid_ (fst run)) = probe_calls (pid_ s) ++ calls
       /\ List.length calls = 2%nat.
Proof.
  intros s run. split; [reflexivity | ].
  destruct (ticks_call_Update_once_each [(0, 1, 0); (0, 2, 0)] s
              (Bench.joint 0 0 0)) as (calls & Hc & Hl & _);
    [discriminate | ].
  exists calls. split; [exact Hc | exact Hl].
Defined.

(** X15.  Without a [joint_control_pid] child the integrator is initialised
    with seven zeros, whatever else the element configures and whatever the
    unassigned local holds. *)
Theorem InitializeParams_without_pid_block {integrator : PID}
    (v : float) (s : MotorModelServo) :
  HasElement (motor_ s) "joint_control_pid" = false ->
  pid_ (InitializeParams v s) = PID_Init (mkGains 0 0 0 0 0 0 0).
Proof.
  intros H. unfold InitializeParams, joint_control_pid. simpl.
  rewrite H. reflexivity.
Qed.

Lemma InitializeParams_without_pid_block_witness :
  let motor := Node [("controlMode", Text "velocity");
                     ("maxRotVelocity", Number 5)]%string in
  let s := InitializeParams 7 (Bench.constructed motor) in
  probe_gains (pid_ s) = mkGains 0 0 0 0 0 0 0
  /\ mode_ s = kVelocity /\ max_rot_velocity_ s = 5.
Proof.
  intros motor s. split; [ | split; reflexivity].
  unfold s.
  rewrite (InitializeParams_without_pid_block 7 (Bench.constructed motor));
    reflexivity.
Defined.

Lemma InitializeParams_twice_witness :
  let with_block := Bench.constructed Bench.motor_with_pid in
  let without_block :=
    Bench.constructed (Node [("controlMode", Text "force")]%string) in
  InitializeParams 8 (InitializeParams 7 with_block)
  = InitializeParams 8 with_block
  /\ gain_iMax (probe_gains (pid_ (InitializeParams 8
                                     (InitializeParams 7 with_block)))) = 8
  /\ InitializeParams 8 (InitializeParams 7 without_block)
     = InitializeParams 7 without_block.
Proof.
  intros with_block without_block.
  destruct (InitializeParams_twice 7 8 with_block) as (H1 & _).
  destruct (InitializeParams_twice 7 8 without_block) as (_ & H2).
  split; [exact H1 | ].
  split; [rewrite H1; reflexivity | ].
  apply H2. reflexivity.
Defined.
